(** * SmartBits: a binary-clock watch face (src/SmartBits.c)

    Shallow embedding of the watch face's encoding and layout code, and the
    properties of it that the specification states.

    - C [int] is a 32-bit two's complement integer, [unsigned short] a 16-bit
      unsigned one, [int16_t] (the coordinates of the SDK's [GPoint]) a 16-bit
      signed one; every arithmetic result is wrapped to its type.
    - The drawing context is the fill colour plus the log of the circles filled
      so far, most recent first; the colour of a pixel is that of the most
      recent circle that covers it.
    - The clock ([localtime], [clock_is_24h_style]) is an input of the time
      layer's update procedure; the globals of the program are a record that
      the notification handlers transform. *)

From Stdlib Require Import ZArith Bool List Lia.
Import ListNotations.

Local Open Scope Z_scope.

(** ** Machine integers *)

Module CInt.

(** Two's complement representative of [z] on [w] bits. *)
Definition wrap_signed (w z : Z) : Z :=
  (z + 2 ^ (w - 1)) mod 2 ^ w - 2 ^ (w - 1).

Definition wrap_unsigned (w z : Z) : Z := z mod 2 ^ w.

(** [int] *)
Definition int (z : Z) : Z := wrap_signed 32 z.
(** [int16_t] *)
Definition int16_t (z : Z) : Z := wrap_signed 16 z.
(** [unsigned short] *)
Definition unsigned_short (z : Z) : Z := wrap_unsigned 16 z.

Definition INT_MAX : Z := 2147483647.

Definition add (a b : Z) : Z := int (a + b).
Definition mul (a b : Z) : Z := int (a * b).
(** C division and remainder truncate towards zero. *)
Definition div (a b : Z) : Z := int (Z.quot a b).
Definition rem (a b : Z) : Z := int (Z.rem a b).
(** [&] on two's complement values is [Z.land]: no wrap is needed. *)
Definition band (a b : Z) : Z := Z.land a b.

(** Conversion of an integer to [bool] ([_Bool]): non-zero is true. *)
Definition to_bool (z : Z) : bool := negb (z =? 0).
(** Promotion of a [bool] to [int]. *)
Definition of_bool (b : bool) : Z := if b then 1 else 0.

End CInt.

Infix "+i" := CInt.add (at level 50, left associativity).
Infix "*i" := CInt.mul (at level 40, left associativity).
Infix "/i" := CInt.div (at level 40, left associativity).
Infix "%i" := CInt.rem (at level 40, left associativity).
Infix "&i" := CInt.band (at level 40, left associativity).

(** ** Global constants *)

Definition kSpace : Z := 4.
Definition kDotRadius : Z := 12.

Definition kMonthColumn : Z := 0.
Definition kDayOfMonthColumn : Z := 1.
Definition kHourColumn : Z := 2.
Definition kMinuteColumn : Z := 3.
Definition kSecondColumn : Z := 4.

Definition kWeekDayLine : Z := 5.

(** ** The toolkit's types (pebble.h) *)

(** A point of the screen.  pebble.h, the SDK header that the program
    includes, declares both coordinates [int16_t]. *)
Record GPoint : Type := mkGPoint { x : Z; y : Z }.

(** The [GPoint(x, y)] initialiser: each [int] argument is converted to the
    coordinate type. *)
Definition GPoint_of (px py : Z) : GPoint :=
  mkGPoint (CInt.int16_t px) (CInt.int16_t py).

Inductive GColor : Type := GColorBlack | GColorWhite.

(** Modelled from the spec: the drawing surface, which the SDK provides, is
    what [fillCircle(center, radius, color)] calls have made of it.  One
    record per [graphics_fill_circle] call, with the colour that was
    current. *)
Record circle : Type := mkCircle
  { center : GPoint; radius : Z; color : GColor }.

(** Modelled from the spec: the drawing context is the current fill colour,
    one of two, and what was drawn. *)
Record GContext : Type := mkGContext
  { fill_color : GColor; drawn : list circle }.

Definition graphics_context_set_fill_color (ctx : GContext) (c : GColor)
  : GContext :=
  mkGContext c (drawn ctx).

Definition graphics_fill_circle (ctx : GContext) (p : GPoint) (r : Z)
  : GContext :=
  mkGContext (fill_color ctx) (mkCircle p r (fill_color ctx) :: drawn ctx).

(** Modelled from the spec: filling a circle changes the pixels within
    [radius] of its centre. *)
Definition covers (c : circle) (p : GPoint) : bool :=
  (x p - x (center c)) * (x p - x (center c))
  + (y p - y (center c)) * (y p - y (center c))
  <=? radius c * radius c.

(** Colour of pixel [p]: the most recent circle covering it, or [None] when
    nothing of the log touches it. *)
Fixpoint painted (log : list circle) (p : GPoint) : option GColor :=
  match log with
  | [] => None
  | c :: log' => if covers c p then Some (color c) else painted log' p
  end.

Definition pixel (ctx : GContext) (p : GPoint) : option GColor :=
  painted (drawn ctx) p.

(** ** Layout and the indicator renderer *)

Definition getCenter (col row : Z) : GPoint :=
  GPoint_of
    (kDotRadius *i (1 +i 2 *i col) +i kSpace *i col +i kSpace)
    (kDotRadius *i (1 +i 2 *i row) +i kSpace *i row +i kSpace /i 2).

Definition toggle_led (ctx : GContext) (col row : Z) (on : bool) : GContext :=
  let ctx := graphics_context_set_fill_color ctx
               (if on then GColorWhite else GColorBlack) in
  graphics_fill_circle ctx (getCenter col row) kDotRadius.

(** Reading an indicator back from the surface: it is on when the pixel at
    its centre is white. *)
Definition led_on (ctx : GContext) (col row : Z) : bool :=
  match pixel ctx (getCenter col row) with
  | Some GColorWhite => true
  | _ => false
  end.

(** ** The clock *)

(** The fields of [struct tm] that the watch face reads. *)
Record tm : Type := mk_tm
  { tm_sec : Z; tm_min : Z; tm_hour : Z; tm_mday : Z; tm_mon : Z; tm_wday : Z }.

(** The locals that [time_update] derives from the clock, one definition per
    local, each converted to the local's declared type. *)
Definition hour (t : tm) (is_24h_style : bool) : Z :=
  let hour :=
    CInt.unsigned_short (if is_24h_style then tm_hour t else tm_hour t %i 12) in
  CInt.unsigned_short (if negb is_24h_style && (0 =? hour) then 12 else hour).

Definition pm (t : tm) : bool := CInt.to_bool (tm_hour t /i 12).

Definition month (t : tm) : Z := CInt.unsigned_short (tm_mon t +i 1).

Definition week_day (t : tm) : Z :=
  CInt.unsigned_short (if negb (0 =? tm_wday t) then tm_wday t else 7).

(** The update procedure of the time layer. [t] is what [localtime] returned
    and [is_24h_style] what [clock_is_24h_style] returned. *)
Definition time_update (t : tm) (is_24h_style : bool) (ctx : GContext)
  : GContext :=
  let hour := hour t is_24h_style in
  let pm := pm t in
  let month := month t in
  let week_day := week_day t in

  let ctx := toggle_led ctx kSecondColumn 0 (CInt.to_bool (tm_sec t &i 1)) in
  let ctx := toggle_led ctx kSecondColumn 1 (CInt.to_bool (tm_sec t &i 2)) in
  let ctx := toggle_led ctx kSecondColumn 2 (CInt.to_bool (tm_sec t &i 4)) in
  let ctx := toggle_led ctx kSecondColumn 3 (CInt.to_bool (tm_sec t &i 8)) in
  let ctx := toggle_led ctx kSecondColumn 4 (CInt.to_bool (tm_sec t &i 16)) in
  let ctx := toggle_led ctx kSecondColumn 5 (CInt.to_bool (tm_sec t &i 32)) in

  let ctx := toggle_led ctx kMinuteColumn 0 (CInt.to_bool (tm_min t &i 1)) in
  let ctx := toggle_led ctx kMinuteColumn 1 (CInt.to_bool (tm_min t &i 2)) in
  let ctx := toggle_led ctx kMinuteColumn 2 (CInt.to_bool (tm_min t &i 4)) in
  let ctx := toggle_led ctx kMinuteColumn 3 (CInt.to_bool (tm_min t &i 8)) in
  let ctx := toggle_led ctx kMinuteColumn 4 (CInt.to_bool (tm_min t &i 16)) in
  let ctx := toggle_led ctx kMinuteColumn 5 (CInt.to_bool (tm_min t &i 32)) in

  let ctx := toggle_led ctx kHourColumn 0 (CInt.to_bool (hour &i 1)) in
  let ctx := toggle_led ctx kHourColumn 1 (CInt.to_bool (hour &i 2)) in
  let ctx := toggle_led ctx kHourColumn 2 (CInt.to_bool (hour &i 4)) in
  let ctx := toggle_led ctx kHourColumn 3 (CInt.to_bool (hour &i 8)) in
  let ctx := toggle_led ctx kHourColumn 4
               (CInt.to_bool
                  (if is_24h_style then hour &i 16 else CInt.of_bool pm)) in
  let ctx := toggle_led ctx kHourColumn kWeekDayLine
               (CInt.to_bool (week_day &i 1)) in

  let ctx := toggle_led ctx kDayOfMonthColumn 0 (CInt.to_bool (tm_mday t &i 1)) in
  let ctx := toggle_led ctx kDayOfMonthColumn 1 (CInt.to_bool (tm_mday t &i 2)) in
  let ctx := toggle_led ctx kDayOfMonthColumn 2 (CInt.to_bool (tm_mday t &i 4)) in
  let ctx := toggle_led ctx kDayOfMonthColumn 3 (CInt.to_bool (tm_mday t &i 8)) in
  let ctx := toggle_led ctx kDayOfMonthColumn 4 (CInt.to_bool (tm_mday t &i 16)) in
  let ctx := toggle_led ctx kDayOfMonthColumn kWeekDayLine
               (CInt.to_bool (week_day &i 2)) in

  let ctx := toggle_led ctx kMonthColumn 0 (CInt.to_bool (month &i 1)) in
  let ctx := toggle_led ctx kMonthColumn 1 (CInt.to_bool (month &i 2)) in
  let ctx := toggle_led ctx kMonthColumn 2 (CInt.to_bool (month &i 4)) in
  let ctx := toggle_led ctx kMonthColumn 3 (CInt.to_bool (month &i 8)) in
  let ctx := toggle_led ctx kMonthColumn kWeekDayLine
               (CInt.to_bool (week_day &i 4)) in
  ctx.

(** ** Globals and the notification handlers *)

Record BatteryChargeState : Type := mkBatteryChargeState
  { charge_percent : Z; is_charging : bool; is_plugged : bool }.

(** The three layers of the window, named as the globals that hold them. *)
Inductive Layer : Type := s_time_layer | s_battery_layer | s_connected_layer.

Definition Layer_eqb (a b : Layer) : bool :=
  match a, b with
  | s_time_layer, s_time_layer
  | s_battery_layer, s_battery_layer
  | s_connected_layer, s_connected_layer => true
  | _, _ => false
  end.

(** The mutable globals, and the layers waiting for a redraw. *)
Record globals : Type := mkGlobals
  { s_battery_current : BatteryChargeState;
    s_connected_current : bool;
    dirty : list Layer }.

(** The initialisers of the globals. *)
Definition globals_init : globals :=
  mkGlobals (mkBatteryChargeState 0 false false) false [].

(** Modelled from the spec: [markDirty(layer)] asks for a redraw of the
    layer; marking it again before it is painted asks for nothing more. *)
Definition layer_mark_dirty (l : Layer) (g : globals) : globals :=
  mkGlobals (s_battery_current g) (s_connected_current g)
            (if existsb (Layer_eqb l) (dirty g) then dirty g else l :: dirty g).

Inductive TimeUnits : Type :=
  SECOND_UNIT | MINUTE_UNIT | HOUR_UNIT | DAY_UNIT | MONTH_UNIT | YEAR_UNIT.

(** [tick_time] may be [NULL]: it is not read. *)
Definition handle_second_tick (tick_time : option tm)
           (units_changed : TimeUnits) (g : globals) : globals :=
  layer_mark_dirty s_time_layer g.

Definition handle_battery (charge_state : BatteryChargeState) (g : globals)
  : globals :=
  let g := mkGlobals charge_state (s_connected_current g) (dirty g) in
  layer_mark_dirty s_battery_layer g.

Definition handle_connected (connected : bool) (g : globals) : globals :=
  let g := mkGlobals (s_battery_current g) connected (dirty g) in
  layer_mark_dirty s_connected_layer g.

(** What [init] does to the globals; [battery_peek] and [connection_peek]
    are what the two services report at start-up. *)
Definition init (battery_peek : BatteryChargeState) (connection_peek : bool)
  : globals :=
  let g := handle_second_tick None SECOND_UNIT globals_init in
  let g := handle_battery battery_peek g in
  handle_connected connection_peek g.

(** The update procedure of the battery layer: its body is empty. *)
Definition battery_update (g : globals) (ctx : GContext) : GContext := ctx.

(** The update procedure of the connection layer. *)
Definition connected_update (g : globals) (ctx : GContext) : GContext :=
  toggle_led ctx 0 4 (s_connected_current g).

(** ** Reading the grid back *)

(** Value of the indicator at [row] of [col] read as bit [row]. *)
Definition bit_value (ctx : GContext) (col row : Z) : Z :=
  if led_on ctx col row then 2 ^ row else 0.

(** The number whose bit [r] is indicator [r] of [col], for [r] in [rows]. *)
Definition read_rows (ctx : GContext) (col : Z) (rows : list Z) : Z :=
  fold_right (fun r acc => bit_value ctx col r + acc) 0 rows.

(** The weekday, from the sixth line of the hour, day and month columns. *)
Definition read_week_day (ctx : GContext) : Z :=
  CInt.of_bool (led_on ctx kHourColumn kWeekDayLine)
  + 2 * CInt.of_bool (led_on ctx kDayOfMonthColumn kWeekDayLine)
  + 4 * CInt.of_bool (led_on ctx kMonthColumn kWeekDayLine).

(** An empty surface. *)
Definition blank : GContext := mkGContext GColorBlack [].

(** The last second of a year that ends on a Saturday. *)
Definition new_years_eve : tm := mk_tm 59 59 23 31 11 6.

(** ** Ranges and bit sums used in the statements *)

(** Largest column or row whose centre is representable. *)
Definition max_address : Z := 1169.

Definition in_range (col row : Z) : bool :=
  (0 <=? col) && (col <=? max_address) && (0 <=? row) && (row <=? max_address).

(** The number that has, among the bits [rows], those of [n]. *)
Definition bits_value (n : Z) (rows : list Z) : Z :=
  fold_right (fun r acc => (if Z.testbit n r then 2 ^ r else 0) + acc) 0 rows.

(** [f] holds of [0 .. k-1]. *)
Fixpoint all_below (k : nat) (f : Z -> bool) : bool :=
  match k with
  | O => true
  | S k' => f (Z.of_nat k') && all_below k' f
  end.

(** ** Whole redraws and the event loop *)

(** Where a circle is, whatever its colour. *)
Definition geometry (c : circle) : GPoint * Z := (center c, radius c).

(** Some circle of the log covers [p]. *)
Definition covered (log : list circle) (p : GPoint) : bool :=
  existsb (fun c => covers c p) log.

(** The addresses of the [toggle_led] calls of [time_update], the last call
    first. *)
Definition time_cells : list (Z * Z) :=
  [ (kMonthColumn, kWeekDayLine); (kMonthColumn, 3); (kMonthColumn, 2);
    (kMonthColumn, 1); (kMonthColumn, 0);
    (kDayOfMonthColumn, kWeekDayLine); (kDayOfMonthColumn, 4);
    (kDayOfMonthColumn, 3); (kDayOfMonthColumn, 2); (kDayOfMonthColumn, 1);
    (kDayOfMonthColumn, 0);
    (kHourColumn, kWeekDayLine); (kHourColumn, 4); (kHourColumn, 3);
    (kHourColumn, 2); (kHourColumn, 1); (kHourColumn, 0);
    (kMinuteColumn, 5); (kMinuteColumn, 4); (kMinuteColumn, 3);
    (kMinuteColumn, 2); (kMinuteColumn, 1); (kMinuteColumn, 0);
    (kSecondColumn, 5); (kSecondColumn, 4); (kSecondColumn, 3);
    (kSecondColumn, 2); (kSecondColumn, 1); (kSecondColumn, 0) ].

Definition cell_geometry (a : Z * Z) : GPoint * Z :=
  (getCenter (fst a) (snd a), kDotRadius).

(** What one run of [time_update] adds to the log. *)
Definition time_circles (t : tm) (is_24h_style : bool) : list circle :=
  drawn (time_update t is_24h_style blank).

(** The ranges of the fields of [struct tm]; a leap second is 60. *)
Definition valid_tm (t : tm) : Prop :=
  0 <= tm_sec t <= 60 /\ 0 <= tm_min t <= 59 /\ 0 <= tm_hour t <= 23
  /\ 1 <= tm_mday t <= 31 /\ 0 <= tm_mon t <= 11 /\ 0 <= tm_wday t <= 6.

(** Reading the hour off its column: five bits in 24-hour mode, four bits
    and the PM flag in 12-hour mode, where 12 stands for 0. *)
Definition read_hour (is_24h_style : bool) (g : GContext) : Z :=
  if is_24h_style then read_rows g kHourColumn [0; 1; 2; 3; 4]
  else read_rows g kHourColumn [0; 1; 2; 3] mod 12
       + 12 * CInt.of_bool (led_on g kHourColumn 4).

(** Reading the clock off the grid. *)
Definition read_tm (is_24h_style : bool) (g : GContext) : tm :=
  mk_tm (read_rows g kSecondColumn [0; 1; 2; 3; 4; 5])
        (read_rows g kMinuteColumn [0; 1; 2; 3; 4; 5])
        (read_hour is_24h_style g)
        (read_rows g kDayOfMonthColumn [0; 1; 2; 3; 4])
        (read_rows g kMonthColumn [0; 1; 2; 3] - 1)
        (read_week_day g mod 7).

(** One frame: the update procedures of the three layers, run in the order
    in which [init] adds the layers to the window. *)
Definition draw_frame (t : tm) (is_24h_style : bool) (g : globals)
           (ctx : GContext) : GContext :=
  let ctx := time_update t is_24h_style ctx in
  let ctx := battery_update g ctx in
  connected_update g ctx.

(** Modelled from the spec: the event loop calls the handlers that [init]
    subscribed, one notification at a time. *)
Inductive event : Type :=
| Tick (tick_time : option tm) (units_changed : TimeUnits)
| BatteryChanged (charge_state : BatteryChargeState)
| ConnectionChanged (connected : bool).

Definition dispatch (g : globals) (e : event) : globals :=
  match e with
  | Tick tick_time units_changed => handle_second_tick tick_time units_changed g
  | BatteryChanged charge_state => handle_battery charge_state g
  | ConnectionChanged connected => handle_connected connected g
  end.

Definition app_event_loop (events : list event) (g : globals) : globals :=
  fold_left dispatch events g.

Definition is_connection_event (e : event) : bool :=
  match e with ConnectionChanged _ => true | _ => false end.

Definition is_battery_event (e : event) : bool :=
  match e with BatteryChanged _ => true | _ => false end.


(** * Properties *)

(** ** Machine integers in range *)

Lemma int_small (z : Z) : -2147483648 <= z <= CInt.INT_MAX -> CInt.int z = z.
Proof.
  unfold CInt.INT_MAX, CInt.int, CInt.wrap_signed; intros Hz.
  change (2 ^ (32 - 1)) with 2147483648.
  change (2 ^ 32) with 4294967296.
  rewrite Z.mod_small; lia.
Qed.

Lemma int16_t_small (z : Z) : -32768 <= z <= 32767 -> CInt.int16_t z = z.
Proof.
  unfold CInt.int16_t, CInt.wrap_signed; intros Hz.
  change (2 ^ (16 - 1)) with 32768.
  change (2 ^ 16) with 65536.
  rewrite Z.mod_small; lia.
Qed.

Lemma unsigned_short_small (z : Z) :
  0 <= z <= 65535 -> CInt.unsigned_short z = z.
Proof.
  unfold CInt.unsigned_short, CInt.wrap_unsigned; intros Hz.
  change (2 ^ 16) with 65536.
  apply Z.mod_small; lia.
Qed.

Lemma add_small (a b : Z) :
  -2147483648 <= a + b <= CInt.INT_MAX -> a +i b = a + b.
Proof. apply int_small. Qed.

Lemma mul_small (a b : Z) :
  -2147483648 <= a * b <= CInt.INT_MAX -> a *i b = a * b.
Proof. apply int_small. Qed.

(** Testing one bit with a mask. *)
Lemma land_pow2 (a n : Z) :
  0 <= n -> Z.land a (2 ^ n) = if Z.testbit a n then 2 ^ n else 0.
Proof.
  intros Hn. apply Z.bits_inj'. intros i Hi.
  rewrite Z.land_spec, Z.pow2_bits_eqb by assumption.
  destruct (Z.eqb_spec n i) as [-> | Hne].
  - destruct (Z.testbit a i) eqn:E.
    + now rewrite Z.pow2_bits_eqb, Z.eqb_refl by assumption.
    + now rewrite Z.bits_0.
  - rewrite andb_false_r.
    destruct (Z.testbit a n).
    + rewrite Z.pow2_bits_eqb by assumption.
      symmetry. now apply Z.eqb_neq.
    + now rewrite Z.bits_0.
Qed.

Lemma to_bool_mask (a n : Z) :
  0 <= n -> CInt.to_bool (a &i 2 ^ n) = Z.testbit a n.
Proof.
  intros Hn. unfold CInt.to_bool, CInt.band. rewrite land_pow2 by assumption.
  destruct (Z.testbit a n); [| reflexivity].
  assert (0 < 2 ^ n) by (apply Z.pow_pos_nonneg; lia).
  destruct (Z.eqb_spec (2 ^ n) 0); [lia | reflexivity].
Qed.

(** ** The layout on the addresses whose centre fits the coordinate type *)

Lemma in_range_spec (col row : Z) :
  in_range col row = true <->
  0 <= col <= max_address /\ 0 <= row <= max_address.
Proof.
  unfold in_range. rewrite !andb_true_iff, !Z.leb_le. tauto.
Qed.

Lemma getCenter_in_range (col row : Z) :
  in_range col row = true ->
  getCenter col row = mkGPoint (28 * col + 16) (28 * row + 14).
Proof.
  rewrite in_range_spec. unfold max_address. intros [Hc Hr].
  unfold getCenter, GPoint_of, kDotRadius, kSpace, CInt.div.
  change (Z.quot 4 2) with 2.
  rewrite (int_small 2) by (unfold CInt.INT_MAX; lia).
  assert (El : forall a, 0 <= a <= 1169 ->
                12 *i (1 +i 2 *i a) +i 4 *i a = 28 * a + 12).
  { intros a Ha.
    rewrite (mul_small 2 a) by (unfold CInt.INT_MAX; lia).
    rewrite (add_small 1) by (unfold CInt.INT_MAX; lia).
    rewrite (mul_small 12) by (unfold CInt.INT_MAX; lia).
    rewrite (mul_small 4 a) by (unfold CInt.INT_MAX; lia).
    rewrite add_small by (unfold CInt.INT_MAX; lia).
    lia. }
  rewrite !El by assumption.
  rewrite !add_small by (unfold CInt.INT_MAX; lia).
  rewrite !int16_t_small by lia.
  f_equal; lia.
Qed.

Lemma square_le_144 (a : Z) : a * a <= 144 -> -12 <= a <= 12.
Proof.
  intros H. split.
  - destruct (Z_le_gt_dec (-12) a) as [Hl | Hl]; [assumption |].
    assert (13 * 13 <= (- a) * (- a)) by (apply Z.mul_le_mono_nonneg; lia).
    lia.
  - destruct (Z_le_gt_dec a 12) as [Hu | Hu]; [assumption |].
    assert (13 * 13 <= a * a) by (apply Z.mul_le_mono_nonneg; lia).
    lia.
Qed.

Lemma square_ge_256 (a : Z) : 16 <= a \/ a <= -16 -> 256 <= a * a.
Proof.
  intros [H | H].
  - change 256 with (16 * 16). apply Z.mul_le_mono_nonneg; lia.
  - replace (a * a) with ((- a) * (- a)) by lia.
    change 256 with (16 * 16). apply Z.mul_le_mono_nonneg; lia.
Qed.

(** Two circles of the grid at different addresses share no pixel: their
    centres are 28 apart on an axis and each reaches 12 from its centre. *)
Lemma covers_disjoint (c1 r1 c2 r2 : Z) (k1 k2 : GColor) (p : GPoint) :
  in_range c1 r1 = true -> in_range c2 r2 = true ->
  (c1 =? c2) && (r1 =? r2) = false ->
  covers (mkCircle (getCenter c1 r1) kDotRadius k1) p = true ->
  covers (mkCircle (getCenter c2 r2) kDotRadius k2) p = false.
Proof.
  intros H1 H2 Hne.
  rewrite (getCenter_in_range _ _ H1), (getCenter_in_range _ _ H2).
  unfold covers, kDotRadius; cbn [center radius x y].
  rewrite Z.leb_le, Z.leb_gt.
  apply andb_false_iff in Hne.
  rewrite !Z.eqb_neq in Hne.
  destruct p as [px py]; cbn [x y].
  set (dx1 := px - (28 * c1 + 16)). set (dy1 := py - (28 * r1 + 14)).
  set (dx2 := px - (28 * c2 + 16)). set (dy2 := py - (28 * r2 + 14)).
  intros Hin.
  pose proof (Z.square_nonneg dx1). pose proof (Z.square_nonneg dy1).
  pose proof (Z.square_nonneg dx2). pose proof (Z.square_nonneg dy2).
  assert (Hx : -12 <= dx1 <= 12) by (apply square_le_144; lia).
  assert (Hy : -12 <= dy1 <= 12) by (apply square_le_144; lia).
  destruct Hne as [Hc | Hr].
  - assert (256 <= dx2 * dx2) by (apply square_ge_256; subst dx1 dx2; lia).
    lia.
  - assert (256 <= dy2 * dy2) by (apply square_ge_256; subst dy1 dy2; lia).
    lia.
Qed.

Lemma covers_own_center (p : GPoint) (k : GColor) :
  covers (mkCircle p kDotRadius k) p = true.
Proof.
  unfold covers, kDotRadius; cbn [center radius].
  rewrite !Z.sub_diag. reflexivity.
Qed.

(** ** The indicator renderer *)

Lemma drawn_toggle_led (ctx : GContext) (col row : Z) (on : bool) :
  drawn (toggle_led ctx col row on) =
  mkCircle (getCenter col row) kDotRadius
           (if on then GColorWhite else GColorBlack) :: drawn ctx.
Proof. reflexivity. Qed.

(** Pixels outside the indicator's circle keep their colour. *)
Lemma pixel_toggle_led_outside (ctx : GContext) (col row : Z) (on : bool)
      (p : GPoint) :
  covers (mkCircle (getCenter col row) kDotRadius GColorBlack) p = false ->
  pixel (toggle_led ctx col row on) p = pixel ctx p.
Proof.
  intros Hout. unfold pixel. rewrite drawn_toggle_led. cbn [painted].
  unfold covers in *. cbn [center radius] in *. now rewrite Hout.
Qed.

Lemma led_on_toggle_led_same (ctx : GContext) (col row : Z) (on : bool) :
  led_on (toggle_led ctx col row on) col row = on.
Proof.
  unfold led_on, pixel. rewrite drawn_toggle_led. cbn [painted].
  rewrite covers_own_center. cbn [color]. now destruct on.
Qed.

Lemma led_on_toggle_led_other (ctx : GContext) (c1 r1 c2 r2 : Z) (on : bool) :
  in_range c1 r1 = true -> in_range c2 r2 = true ->
  (c1 =? c2) && (r1 =? r2) = false ->
  led_on (toggle_led ctx c1 r1 on) c2 r2 = led_on ctx c2 r2.
Proof.
  intros H1 H2 Hne. unfold led_on.
  rewrite pixel_toggle_led_outside; [reflexivity |].
  destruct (covers _ _) eqn:E; [| reflexivity].
  rewrite Z.eqb_sym, (Z.eqb_sym r1) in Hne.
  pose proof (covers_disjoint c2 r2 c1 r1 GColorBlack GColorBlack
                (getCenter c2 r2) H2 H1 Hne (covers_own_center _ _)) as D.
  congruence.
Qed.

(** Both cases at once, for addresses of the grid. *)
Lemma led_on_toggle_led (ctx : GContext) (c1 r1 c2 r2 : Z) (on : bool) :
  in_range c1 r1 = true -> in_range c2 r2 = true ->
  led_on (toggle_led ctx c1 r1 on) c2 r2 =
  if (c1 =? c2) && (r1 =? r2) then on else led_on ctx c2 r2.
Proof.
  intros H1 H2. destruct ((c1 =? c2) && (r1 =? r2)) eqn:E.
  - apply andb_true_iff in E. rewrite !Z.eqb_eq in E. destruct E; subst.
    apply led_on_toggle_led_same.
  - now apply led_on_toggle_led_other.
Qed.

(** ** What the time layer shows, indicator by indicator *)

(** One step through the log: the most recent [toggle_led] either is the
    indicator asked for or leaves it as it was. *)
Ltac led_step :=
  rewrite led_on_toggle_led by reflexivity;
  lazymatch goal with
  | |- (if ?b then _ else _) = _ =>
      let v := eval vm_compute in b in
      change b with v; cbv iota
  end.

Ltac read_led := unfold time_update; cbv zeta; repeat led_step.

Ltac mask_bit n :=
  exact (to_bool_mask _ n ltac:(lia)).

Section TimeLayer.

Variables (t : tm) (is_24h_style : bool) (ctx : GContext).

Let shown := time_update t is_24h_style ctx.

Lemma second_column (r : Z) :
  0 <= r <= 5 -> led_on shown kSecondColumn r = Z.testbit (tm_sec t) r.
Proof.
  intros Hr. subst shown.
  assert (E : r = 0 \/ r = 1 \/ r = 2 \/ r = 3 \/ r = 4 \/ r = 5) by lia.
  destruct E as [-> | [-> | [-> | [-> | [-> | ->]]]]]; read_led;
    [mask_bit 0 | mask_bit 1 | mask_bit 2 | mask_bit 3 | mask_bit 4
     | mask_bit 5].
Qed.

Lemma minute_column (r : Z) :
  0 <= r <= 5 -> led_on shown kMinuteColumn r = Z.testbit (tm_min t) r.
Proof.
  intros Hr. subst shown.
  assert (E : r = 0 \/ r = 1 \/ r = 2 \/ r = 3 \/ r = 4 \/ r = 5) by lia.
  destruct E as [-> | [-> | [-> | [-> | [-> | ->]]]]]; read_led;
    [mask_bit 0 | mask_bit 1 | mask_bit 2 | mask_bit 3 | mask_bit 4
     | mask_bit 5].
Qed.

Lemma hour_column_low (r : Z) :
  0 <= r <= 3 ->
  led_on shown kHourColumn r = Z.testbit (hour t is_24h_style) r.
Proof.
  intros Hr. subst shown.
  assert (E : r = 0 \/ r = 1 \/ r = 2 \/ r = 3) by lia.
  destruct E as [-> | [-> | [-> | ->]]]; read_led;
    [mask_bit 0 | mask_bit 1 | mask_bit 2 | mask_bit 3].
Qed.

Lemma hour_column_4 :
  led_on shown kHourColumn 4 =
  if is_24h_style then Z.testbit (hour t is_24h_style) 4 else pm t.
Proof.
  subst shown. read_led. destruct is_24h_style.
  - mask_bit 4.
  - now destruct (pm t).
Qed.

Lemma day_of_month_column (r : Z) :
  0 <= r <= 4 -> led_on shown kDayOfMonthColumn r = Z.testbit (tm_mday t) r.
Proof.
  intros Hr. subst shown.
  assert (E : r = 0 \/ r = 1 \/ r = 2 \/ r = 3 \/ r = 4) by lia.
  destruct E as [-> | [-> | [-> | [-> | ->]]]]; read_led;
    [mask_bit 0 | mask_bit 1 | mask_bit 2 | mask_bit 3 | mask_bit 4].
Qed.

Lemma month_column (r : Z) :
  0 <= r <= 3 -> led_on shown kMonthColumn r = Z.testbit (month t) r.
Proof.
  intros Hr. subst shown.
  assert (E : r = 0 \/ r = 1 \/ r = 2 \/ r = 3) by lia.
  destruct E as [-> | [-> | [-> | ->]]]; read_led;
    [mask_bit 0 | mask_bit 1 | mask_bit 2 | mask_bit 3].
Qed.

Lemma week_day_line :
  led_on shown kHourColumn kWeekDayLine = Z.testbit (week_day t) 0
  /\ led_on shown kDayOfMonthColumn kWeekDayLine = Z.testbit (week_day t) 1
  /\ led_on shown kMonthColumn kWeekDayLine = Z.testbit (week_day t) 2.
Proof.
  subst shown. repeat split; read_led;
    [mask_bit 0 | mask_bit 1 | mask_bit 2].
Qed.

(** The time layer leaves the fifth line of the month column alone. *)
Lemma month_column_4 : led_on shown kMonthColumn 4 = led_on ctx kMonthColumn 4.
Proof. subst shown. now read_led. Qed.

End TimeLayer.

(** ** Numbers from their bits *)

Lemma all_below_spec (k : nat) (f : Z -> bool) :
  all_below k f = true -> forall z, 0 <= z < Z.of_nat k -> f z = true.
Proof.
  induction k as [| k IH]; cbn [all_below]; intros H z Hz.
  - lia.
  - apply andb_true_iff in H. destruct H as [Hk Hrest].
    destruct (Z.eq_dec z (Z.of_nat k)) as [-> | Hne]; [assumption |].
    apply IH; [assumption | lia].
Qed.

Lemma bits_value_6 (n : Z) : 0 <= n < 64 -> bits_value n [0; 1; 2; 3; 4; 5] = n.
Proof.
  intros Hn. apply Z.eqb_eq.
  apply (all_below_spec 64 (fun n => bits_value n [0; 1; 2; 3; 4; 5] =? n));
    [vm_compute; reflexivity | assumption].
Qed.

Lemma bits_value_5 (n : Z) : 0 <= n < 32 -> bits_value n [0; 1; 2; 3; 4] = n.
Proof.
  intros Hn. apply Z.eqb_eq.
  apply (all_below_spec 32 (fun n => bits_value n [0; 1; 2; 3; 4] =? n));
    [vm_compute; reflexivity | assumption].
Qed.

Lemma bits_value_4 (n : Z) : 0 <= n < 16 -> bits_value n [0; 1; 2; 3] = n.
Proof.
  intros Hn. apply Z.eqb_eq.
  apply (all_below_spec 16 (fun n => bits_value n [0; 1; 2; 3] =? n));
    [vm_compute; reflexivity | assumption].
Qed.

Lemma bits_value_3 (n : Z) :
  0 <= n < 8 ->
  CInt.of_bool (Z.testbit n 0) + 2 * CInt.of_bool (Z.testbit n 1)
  + 4 * CInt.of_bool (Z.testbit n 2) = n.
Proof.
  intros Hn. apply Z.eqb_eq.
  apply (all_below_spec 8
           (fun n => CInt.of_bool (Z.testbit n 0)
                     + 2 * CInt.of_bool (Z.testbit n 1)
                     + 4 * CInt.of_bool (Z.testbit n 2) =? n));
    [vm_compute; reflexivity | assumption].
Qed.

(** Reading a column whose indicators are the bits of [n]. *)
Lemma read_rows_bits (g : GContext) (col n : Z) (rows : list Z) :
  (forall r, In r rows -> led_on g col r = Z.testbit n r) ->
  read_rows g col rows = bits_value n rows.
Proof.
  unfold read_rows, bits_value, bit_value.
  induction rows as [| r rows IH]; intros H; cbn [fold_right].
  - reflexivity.
  - rewrite (H r) by (left; reflexivity).
    rewrite IH; [reflexivity |].
    intros r' Hr'. apply H. now right.
Qed.

(** ** The locals of [time_update] *)

Lemma hour_24h (t : tm) : 0 <= tm_hour t <= 23 -> hour t true = tm_hour t.
Proof.
  intros H. unfold hour. cbn [negb andb].
  rewrite (unsigned_short_small (tm_hour t)) by lia.
  apply unsigned_short_small; lia.
Qed.

Lemma hour_12h (t : tm) :
  0 <= tm_hour t <= 23 ->
  hour t false = if tm_hour t mod 12 =? 0 then 12 else tm_hour t mod 12.
Proof.
  intros H. unfold hour, CInt.rem. cbn [negb andb].
  rewrite Z.rem_mod_nonneg by lia.
  pose proof (Z.mod_pos_bound (tm_hour t) 12 ltac:(lia)) as B.
  rewrite int_small by (unfold CInt.INT_MAX; lia).
  rewrite (unsigned_short_small (tm_hour t mod 12)) by lia.
  rewrite (Z.eqb_sym 0).
  destruct (tm_hour t mod 12 =? 0); apply unsigned_short_small; lia.
Qed.

Lemma pm_spec (t : tm) : 0 <= tm_hour t <= 23 -> pm t = (12 <=? tm_hour t).
Proof.
  intros H. unfold pm, CInt.div, CInt.to_bool.
  rewrite Z.quot_div_nonneg by lia.
  destruct (Z.leb_spec 12 (tm_hour t)) as [Hge | Hlt].
  - assert (E : tm_hour t / 12 = 1).
    { symmetry. apply (Z.div_unique _ _ 1 (tm_hour t - 12)); lia. }
    rewrite E. reflexivity.
  - rewrite Z.div_small by lia. reflexivity.
Qed.

Lemma week_day_spec (t : tm) :
  0 <= tm_wday t <= 6 ->
  week_day t = if tm_wday t =? 0 then 7 else tm_wday t.
Proof.
  intros H. unfold week_day. rewrite (Z.eqb_sym 0).
  destruct (tm_wday t =? 0); cbn [negb]; apply unsigned_short_small; lia.
Qed.

Lemma month_spec (t : tm) : 0 <= tm_mon t <= 11 -> month t = tm_mon t + 1.
Proof.
  intros H. unfold month.
  rewrite add_small by (unfold CInt.INT_MAX; lia).
  apply unsigned_short_small; lia.
Qed.

(** ** The time encoding *)

(** C1 (amended).  For every seconds and minutes value in 0..59, hour in
    0..23, day of the month in 1..31 and month in 1..12, the indicators that
    [time_update] draws give back the displayed values: rows 0..5 of the
    seconds and of the minutes column, rows 0..4 of the day column and rows
    0..3 of the month column, read with row [r] as bit [r], are the seconds,
    the minutes, the day and the month; the displayed hour is rows 0..4 of
    the hour column in 24-hour mode and rows 0..3 in 12-hour mode, where row 4
    holds the PM flag instead, so that rows 0..4 read as the displayed hour
    plus 16 in the afternoon. *)
Theorem time_round_trip (t : tm) (is_24h_style : bool) (ctx : GContext) :
  0 <= tm_sec t <= 59 -> 0 <= tm_min t <= 59 -> 0 <= tm_hour t <= 23 ->
  1 <= tm_mday t <= 31 -> 1 <= month t <= 12 ->
  let g := time_update t is_24h_style ctx in
  read_rows g kSecondColumn [0; 1; 2; 3; 4; 5] = tm_sec t
  /\ read_rows g kMinuteColumn [0; 1; 2; 3; 4; 5] = tm_min t
  /\ read_rows g kHourColumn
       (if is_24h_style then [0; 1; 2; 3; 4] else [0; 1; 2; 3])
     = hour t is_24h_style
  /\ read_rows g kHourColumn [0; 1; 2; 3; 4]
     = hour t is_24h_style
       + (if is_24h_style then 0 else 16 * CInt.of_bool (pm t))
  /\ read_rows g kDayOfMonthColumn [0; 1; 2; 3; 4] = tm_mday t
  /\ read_rows g kMonthColumn [0; 1; 2; 3] = month t.
Proof.
  intros Hs Hm Hh Hd Hmo g.
  assert (Hlow : read_rows g kHourColumn [0; 1; 2; 3]
                 = bits_value (hour t is_24h_style) [0; 1; 2; 3]).
  { apply read_rows_bits. intros r Hr. apply hour_column_low.
    cbn [In] in Hr. lia. }
  assert (H12 : 1 <= hour t false <= 12).
  { rewrite hour_12h by assumption.
    pose proof (Z.mod_pos_bound (tm_hour t) 12 ltac:(lia)).
    destruct (Z.eqb_spec (tm_hour t mod 12) 0); lia. }
  repeat split.
  - rewrite (read_rows_bits g _ (tm_sec t)); [apply bits_value_6; lia |].
    intros r Hr. apply second_column. cbn [In] in Hr. lia.
  - rewrite (read_rows_bits g _ (tm_min t)); [apply bits_value_6; lia |].
    intros r Hr. apply minute_column. cbn [In] in Hr. lia.
  - destruct is_24h_style eqn:Emode.
    + rewrite (read_rows_bits g _ (hour t true)).
      * apply bits_value_5. rewrite hour_24h by assumption. lia.
      * intros r Hr. cbn [In] in Hr.
        destruct (Z.eq_dec r 4) as [-> | Hne].
        -- subst g. now rewrite hour_column_4.
        -- apply hour_column_low. lia.
    + rewrite Hlow. apply bits_value_4. lia.
  - replace (read_rows g kHourColumn [0; 1; 2; 3; 4])
      with (read_rows g kHourColumn [0; 1; 2; 3] + bit_value g kHourColumn 4)
      by (unfold read_rows; cbn [fold_right]; lia).
    rewrite Hlow. unfold bit_value. subst g. rewrite hour_column_4.
    destruct is_24h_style.
    + rewrite hour_24h by assumption.
      rewrite <- (bits_value_5 (tm_hour t)) at 3 by lia.
      unfold bits_value; cbn [fold_right]. lia.
    + rewrite bits_value_4 by lia.
      destruct (pm t); cbn [CInt.of_bool]; lia.
  - rewrite (read_rows_bits g _ (tm_mday t)); [apply bits_value_5; lia |].
    intros r Hr. apply day_of_month_column. cbn [In] in Hr. lia.
  - rewrite (read_rows_bits g _ (month t)); [apply bits_value_4; lia |].
    intros r Hr. apply month_column. cbn [In] in Hr. lia.
Qed.

Lemma time_round_trip_witness :
  let g := time_update new_years_eve false blank in
  read_rows g kSecondColumn [0; 1; 2; 3; 4; 5] = 59
  /\ read_rows g kMinuteColumn [0; 1; 2; 3; 4; 5] = 59
  /\ read_rows g kHourColumn [0; 1; 2; 3] = 11
  /\ read_rows g kHourColumn [0; 1; 2; 3; 4] = 11 + 16 * 1
  /\ read_rows g kDayOfMonthColumn [0; 1; 2; 3; 4] = 31
  /\ read_rows g kMonthColumn [0; 1; 2; 3] = 12.
Proof.
  apply (time_round_trip new_years_eve false blank);
    try (cbn [new_years_eve tm_sec tm_min tm_hour tm_mday]; lia).
  change (1 <= 12 <= 12). lia.
Defined.

(** C1, as stated, fails in 12-hour mode in the afternoon: at 13:00 the hour
    column shows 1 on rows 0..3 and the PM flag on row 4, which read together
    as 17, not as the displayed hour 1. *)
Lemma time_round_trip_12h_afternoon :
  let t := mk_tm 0 0 13 1 0 1 in
  let g := time_update t false blank in
  hour t false = 1
  /\ read_rows g kHourColumn [0; 1; 2; 3; 4] = 17
  /\ read_rows g kHourColumn [0; 1; 2; 3; 4] <> hour t false.
Proof.
  cbv zeta. split; [| split].
  - vm_compute. reflexivity.
  - vm_compute. reflexivity.
  - vm_compute. discriminate.
Qed.

(** C2.  For every weekday value [week_day] in 1..7, the bits drawn on the
    sixth line (bit 0 on the hour column, bit 1 on the day column, bit 2 on
    the month column) put together give [week_day] back. *)
Theorem week_day_round_trip (t : tm) (is_24h_style : bool) (ctx : GContext) :
  1 <= week_day t <= 7 ->
  read_week_day (time_update t is_24h_style ctx) = week_day t.
Proof.
  intros H. unfold read_week_day.
  destruct (week_day_line t is_24h_style ctx) as (-> & -> & ->).
  apply bits_value_3. lia.
Qed.

Lemma week_day_round_trip_witness :
  read_week_day (time_update new_years_eve true blank) = 6.
Proof.
  apply (week_day_round_trip new_years_eve true blank).
  change (1 <= 6 <= 7). lia.
Defined.

(** C3.  For every hour in 0..23: in 12-hour mode the displayed hour is
    the hour modulo 12 with 0 shown as 12, hence in 1..12; in 24-hour mode it
    is the hour itself; and the PM flag is on exactly when the hour is at
    least 12. *)
Theorem hour_normalization (t : tm) :
  0 <= tm_hour t <= 23 ->
  1 <= hour t false <= 12
  /\ hour t false = (if tm_hour t mod 12 =? 0 then 12 else tm_hour t mod 12)
  /\ hour t true = tm_hour t
  /\ pm t = (12 <=? tm_hour t).
Proof.
  intros H. repeat split.
  - rewrite hour_12h by assumption.
    pose proof (Z.mod_pos_bound (tm_hour t) 12 ltac:(lia)).
    destruct (Z.eqb_spec (tm_hour t mod 12) 0); lia.
  - rewrite hour_12h by assumption.
    pose proof (Z.mod_pos_bound (tm_hour t) 12 ltac:(lia)).
    destruct (Z.eqb_spec (tm_hour t mod 12) 0); lia.
  - now apply hour_12h.
  - now apply hour_24h.
  - now apply pm_spec.
Qed.

Lemma hour_normalization_witness :
  1 <= hour new_years_eve false <= 12
  /\ hour new_years_eve false = 11
  /\ hour new_years_eve true = 23
  /\ pm new_years_eve = true.
Proof.
  apply (hour_normalization new_years_eve).
  cbn [new_years_eve tm_hour]. lia.
Defined.

(** C4.  For every weekday in 0..6 (0 is Sunday), [week_day] is 7 exactly
    when the weekday is 0, is the weekday otherwise, and lies in 1..7. *)
Theorem week_day_normalization (t : tm) :
  0 <= tm_wday t <= 6 ->
  (week_day t = 7 <-> tm_wday t = 0)
  /\ (tm_wday t <> 0 -> week_day t = tm_wday t)
  /\ 1 <= week_day t <= 7.
Proof.
  intros H. rewrite week_day_spec by assumption.
  destruct (Z.eqb_spec (tm_wday t) 0); repeat split; lia.
Qed.

Lemma week_day_normalization_witness :
  (week_day (mk_tm 0 0 0 1 0 0) = 7 <-> 0 = 0)
  /\ (0 <> 0 -> week_day (mk_tm 0 0 0 1 0 0) = 0)
  /\ 1 <= week_day (mk_tm 0 0 0 1 0 0) <= 7.
Proof.
  apply (week_day_normalization (mk_tm 0 0 0 1 0 0)).
  cbn [tm_wday]. lia.
Defined.

(** C6.  For every hour in 0..23, rows 0..3 of the hour column show bits
    0..3 of the displayed hour; row 4 shows bit 4 of the displayed hour in
    24-hour mode and the PM flag, on exactly when the hour is at least 12, in
    12-hour mode; row 5 shows bit 0 of [week_day]. *)
Theorem hour_column_display (t : tm) (is_24h_style : bool) (ctx : GContext) (r : Z) :
  0 <= tm_hour t <= 23 -> 0 <= r <= 3 ->
  let g := time_update t is_24h_style ctx in
  led_on g kHourColumn r = Z.testbit (hour t is_24h_style) r
  /\ led_on g kHourColumn 4
     = (if is_24h_style then Z.testbit (hour t is_24h_style) 4
        else 12 <=? tm_hour t)
  /\ led_on g kHourColumn kWeekDayLine = Z.testbit (week_day t) 0.
Proof.
  intros Hh Hr g. subst g. split; [| split].
  - now apply hour_column_low.
  - rewrite hour_column_4, pm_spec by assumption. reflexivity.
  - destruct (week_day_line t is_24h_style ctx) as (E & _ & _). exact E.
Qed.

Lemma hour_column_display_witness :
  let g := time_update new_years_eve false blank in
  led_on g kHourColumn 1 = Z.testbit (hour new_years_eve false) 1
  /\ led_on g kHourColumn 4 = (12 <=? 23)
  /\ led_on g kHourColumn kWeekDayLine = Z.testbit (week_day new_years_eve) 0.
Proof.
  apply (hour_column_display new_years_eve false blank 1);
    cbn [new_years_eve tm_hour]; lia.
Defined.

(** 23:59:59 on Saturday 31 December in 24-hour mode.  Each column is listed
    from row 0 to row 5: 59 is 111011 in binary, so row 2 of the seconds and
    of the minutes column is off; the time layer does not draw row 4 of the
    month column. *)
Example new_years_eve_grid :
  let g := time_update new_years_eve true blank in
  map (led_on g kSecondColumn) [0; 1; 2; 3; 4; 5]
  = [true; true; false; true; true; true]
  /\ map (led_on g kMinuteColumn) [0; 1; 2; 3; 4; 5]
     = [true; true; false; true; true; true]
  /\ map (led_on g kHourColumn) [0; 1; 2; 3; 4; 5]
     = [true; true; true; false; true; false]
  /\ map (led_on g kDayOfMonthColumn) [0; 1; 2; 3; 4; 5]
     = [true; true; true; true; true; true]
  /\ map (led_on g kMonthColumn) [0; 1; 2; 3; 4; 5]
     = [false; false; true; true; false; true].
Proof. vm_compute. repeat split. Qed.

(** ** The coordinate mapper *)

(** C5 (amended).  For every column and row in 0..1169, the centres that the
    coordinate type can hold, [getCenter] is
    (radius*(1+2*col) + spacing*col + spacing,
     radius*(1+2*row) + spacing*row + spacing/2) with radius 12 and spacing 4;
    [getCenter 0 0] is (16, 14); and within that range x grows strictly with
    the column and y grows strictly with the row. *)
Theorem getCenter_formula (col row col' row' : Z) :
  0 <= col <= max_address -> 0 <= row <= max_address ->
  0 <= col' <= max_address -> 0 <= row' <= max_address ->
  getCenter col row
  = mkGPoint (kDotRadius * (1 + 2 * col) + kSpace * col + kSpace)
             (kDotRadius * (1 + 2 * row) + kSpace * row + kSpace / 2)
  /\ getCenter 0 0 = mkGPoint 16 14
  /\ (col < col' -> x (getCenter col row) < x (getCenter col' row))
  /\ (row < row' -> y (getCenter col row) < y (getCenter col row')).
Proof.
  intros Hc Hr Hc' Hr'.
  assert (R : forall a b, 0 <= a <= max_address -> 0 <= b <= max_address ->
                          in_range a b = true)
    by (intros a b Ha Hb; now apply in_range_spec).
  rewrite (getCenter_in_range col row), (getCenter_in_range col' row),
    (getCenter_in_range col row') by now apply R.
  unfold kDotRadius, kSpace. change (4 / 2) with 2. cbn [x y].
  repeat split; try lia.
  f_equal; lia.
Qed.

Lemma getCenter_formula_witness :
  getCenter 2 3 = mkGPoint (12 * (1 + 2 * 2) + 4 * 2 + 4)
                           (12 * (1 + 2 * 3) + 4 * 3 + 4 / 2)
  /\ getCenter 0 0 = mkGPoint 16 14
  /\ (2 < 4 -> x (getCenter 2 3) < x (getCenter 4 3))
  /\ (3 < 5 -> y (getCenter 2 3) < y (getCenter 2 5)).
Proof.
  apply (getCenter_formula 2 3 4 5); unfold max_address; lia.
Defined.

(** C5, as stated for every non-negative column, fails where the centre no
    longer fits: column 1170 is mapped to a negative x, left of column 1169,
    and at the largest [int] the sum itself has wrapped. *)
Lemma getCenter_wraps :
  x (getCenter 1170 0) = -32760
  /\ x (getCenter 1170 0) <> kDotRadius * (1 + 2 * 1170) + kSpace * 1170 + kSpace
  /\ x (getCenter 1170 0) < x (getCenter 1169 0)
  /\ x (getCenter CInt.INT_MAX 0) = -12.
Proof.
  repeat split; vm_compute; first [reflexivity | discriminate].
Qed.

(** Row 1170 is out of reach in the same way. *)
Remark getCenter_row_wraps :
  y (getCenter 0 1169) = 32746 /\ y (getCenter 0 1170) = -32762.
Proof. split; vm_compute; reflexivity. Qed.

(** Before the conversion to the coordinate type, the [int] sum is exact up
    to column 76695843 and negative at the next one. *)
Remark getCenter_int_overflow :
  kDotRadius *i (1 +i 2 *i 76695843) +i kSpace *i 76695843 +i kSpace
  = 28 * 76695843 + 16
  /\ kDotRadius *i (1 +i 2 *i 76695844) +i kSpace *i 76695844 +i kSpace
     = -2147483648.
Proof. split; vm_compute; reflexivity. Qed.

(** C9 (amended).  On columns and rows in 0..1169 [getCenter] is injective:
    two different addresses have different centres, which are at least
    2*radius + spacing apart along every axis on which the addresses differ,
    so that no pixel lies in the circles of both. *)
Theorem getCenter_injective (c1 r1 c2 r2 : Z) (k1 k2 : GColor) (p : GPoint) :
  0 <= c1 <= max_address -> 0 <= r1 <= max_address ->
  0 <= c2 <= max_address -> 0 <= r2 <= max_address ->
  (c1, r1) <> (c2, r2) ->
  getCenter c1 r1 <> getCenter c2 r2
  /\ (c1 <> c2 ->
      2 * kDotRadius + kSpace
      <= Z.abs (x (getCenter c1 r1) - x (getCenter c2 r2)))
  /\ (r1 <> r2 ->
      2 * kDotRadius + kSpace
      <= Z.abs (y (getCenter c1 r1) - y (getCenter c2 r2)))
  /\ (covers (mkCircle (getCenter c1 r1) kDotRadius k1) p = true ->
      covers (mkCircle (getCenter c2 r2) kDotRadius k2) p = false).
Proof.
  intros Hc1 Hr1 Hc2 Hr2 Hne.
  assert (R1 : in_range c1 r1 = true) by now apply in_range_spec.
  assert (R2 : in_range c2 r2 = true) by now apply in_range_spec.
  assert (D : (c1 =? c2) && (r1 =? r2) = false).
  { destruct (Z.eqb_spec c1 c2) as [-> | ?]; [| reflexivity].
    destruct (Z.eqb_spec r1 r2) as [-> | ?]; [| reflexivity].
    now contradiction Hne. }
  split; [| split; [| split]].
  - rewrite (getCenter_in_range _ _ R1), (getCenter_in_range _ _ R2).
    intros E.
    pose proof (f_equal x E) as Ex. pose proof (f_equal y E) as Ey.
    cbn [x y] in Ex, Ey. apply Hne. f_equal; lia.
  - rewrite (getCenter_in_range _ _ R1), (getCenter_in_range _ _ R2).
    unfold kDotRadius, kSpace; cbn [x]. lia.
  - rewrite (getCenter_in_range _ _ R1), (getCenter_in_range _ _ R2).
    unfold kDotRadius, kSpace; cbn [y]. lia.
  - now apply covers_disjoint.
Qed.

Lemma getCenter_injective_witness :
  getCenter 0 4 <> getCenter 0 5
  /\ (0 <> 0 -> 2 * kDotRadius + kSpace
                <= Z.abs (x (getCenter 0 4) - x (getCenter 0 5)))
  /\ (4 <> 5 -> 2 * kDotRadius + kSpace
                <= Z.abs (y (getCenter 0 4) - y (getCenter 0 5)))
  /\ (covers (mkCircle (getCenter 0 4) kDotRadius GColorWhite)
             (mkGPoint 16 138) = true ->
      covers (mkCircle (getCenter 0 5) kDotRadius GColorWhite)
             (mkGPoint 16 138) = false).
Proof.
  apply (getCenter_injective 0 4 0 5 GColorWhite GColorWhite (mkGPoint 16 138));
    unfold max_address; try lia.
  intros E. injection E as E. lia.
Defined.

(** C9, as stated for all non-negative addresses, fails: column 16384 has
    the centre of column 0. *)
Lemma getCenter_collision :
  (16384, 0) <> (0, 0) /\ getCenter 16384 0 = getCenter 0 0.
Proof.
  split; [intros E; injection E as E; lia | vm_compute; reflexivity].
Qed.

(** The same happens in the [int] sum alone, at column 2^30. *)
Remark getCenter_int_collision :
  kDotRadius *i (1 +i 2 *i 1073741824) +i kSpace *i 1073741824 +i kSpace
  = kDotRadius *i (1 +i 2 *i 0) +i kSpace *i 0 +i kSpace.
Proof. vm_compute. reflexivity. Qed.

(** ** The status layers *)

(** C7.  A redraw of the connection layer fills exactly one circle, the
    indicator at column 0, row 4, which then shows the connection flag last
    delivered; every other indicator keeps its state.  When the flag goes
    from false to true, that indicator goes from off to on and nothing else
    changes. *)
Theorem connection_rendering (g : globals) (ctx : GContext) (col row : Z) :
  0 <= col <= max_address -> 0 <= row <= max_address ->
  (col, row) <> (0, 4) ->
  let shown := connected_update g ctx in
  let off := connected_update (handle_connected false g) ctx in
  let on :=
    connected_update (handle_connected true (handle_connected false g)) off in
  drawn shown
  = mkCircle (getCenter 0 4) kDotRadius
             (if s_connected_current g then GColorWhite else GColorBlack)
    :: drawn ctx
  /\ led_on shown 0 4 = s_connected_current g
  /\ (forall c, led_on (connected_update (handle_connected c g) ctx) 0 4 = c)
  /\ led_on shown col row = led_on ctx col row
  /\ led_on off 0 4 = false
  /\ led_on on 0 4 = true
  /\ led_on on col row = led_on off col row
  /\ drawn on = mkCircle (getCenter 0 4) kDotRadius GColorWhite :: drawn off.
Proof.
  intros Hc Hr Hne shown off on. subst shown off on.
  assert (R : in_range col row = true) by now apply in_range_spec.
  assert (D : (0 =? col) && (4 =? row) = false).
  { destruct (Z.eqb_spec 0 col) as [<- | ?]; [| reflexivity].
    destruct (Z.eqb_spec 4 row) as [<- | ?]; [| reflexivity].
    now contradiction Hne. }
  unfold connected_update.
  repeat split;
    try (intros; apply led_on_toggle_led_same);
    try (apply led_on_toggle_led_other; [reflexivity | assumption | assumption]).
Qed.

Lemma connection_rendering_witness :
  let off := connected_update (handle_connected false globals_init) blank in
  let on :=
    connected_update
      (handle_connected true (handle_connected false globals_init)) off in
  led_on off 0 4 = false /\ led_on on 0 4 = true
  /\ led_on on kMonthColumn 3 = led_on off kMonthColumn 3.
Proof.
  destruct (connection_rendering globals_init blank kMonthColumn 3)
    as (_ & _ & _ & _ & Hoff & Hon & Hother & _).
  - unfold kMonthColumn, max_address. lia.
  - unfold max_address. lia.
  - intros E. injection E as E. lia.
  - split; [exact Hoff | split; [exact Hon | exact Hother]].
Defined.

(** C8.  Whatever battery state is cached, the update procedure of the
    battery layer draws nothing: it fills no circle and every pixel keeps
    its colour. *)
Theorem battery_update_draws_nothing
        (b : BatteryChargeState) (g : globals) (ctx : GContext) :
  battery_update (handle_battery b g) ctx = ctx
  /\ battery_update g ctx = ctx
  /\ drawn (battery_update (handle_battery b g) ctx) = drawn ctx
  /\ (forall p, pixel (battery_update (handle_battery b g) ctx) p = pixel ctx p)
  /\ (forall c r, led_on (battery_update (handle_battery b g) ctx) c r
                  = led_on ctx c r).
Proof. repeat split. Qed.

(** C10.  Each notification handler updates its own global only:
    [handle_battery b] stores [b] and leaves the connection flag as it was;
    [handle_connected c] stores [c] and leaves the battery state as it
    was. *)
Theorem handlers_frame (b : BatteryChargeState) (c : bool) (g : globals) :
  s_battery_current (handle_battery b g) = b
  /\ s_connected_current (handle_battery b g) = s_connected_current g
  /\ s_connected_current (handle_connected c g) = c
  /\ s_battery_current (handle_connected c g) = s_battery_current g.
Proof. repeat split. Qed.

(** What the handlers do besides: they ask for a redraw of their layer. *)
Lemma handlers_mark_dirty (b : BatteryChargeState) (c : bool) (g : globals) :
  In s_battery_layer (dirty (handle_battery b g))
  /\ In s_connected_layer (dirty (handle_connected c g))
  /\ (forall tick_time units_changed,
         In s_time_layer (dirty (handle_second_tick tick_time units_changed g))).
Proof.
  unfold handle_battery, handle_connected, handle_second_tick,
    layer_mark_dirty; cbn [dirty].
  repeat split; intros;
    match goal with
    | |- In ?l (if existsb ?f ?d then _ else _) =>
        destruct (existsb f d) eqn:E; [| now left];
        apply existsb_exists in E; destruct E as (l' & Hin & Heq);
        destruct l'; try discriminate; exact Hin
    end.
Qed.

(** After start-up all three layers wait for their first redraw and the
    globals hold what the services reported. *)
Lemma init_globals (b : BatteryChargeState) (c : bool) :
  s_battery_current (init b c) = b
  /\ s_connected_current (init b c) = c
  /\ dirty (init b c) = [s_connected_layer; s_battery_layer; s_time_layer].
Proof. repeat split. Qed.

(** * Further properties of the renderer and of whole redraws *)

(** ** The log of circles *)

Lemma painted_app (l1 l2 : list circle) (p : GPoint) :
  painted (l1 ++ l2) p
  = match painted l1 p with Some k => Some k | None => painted l2 p end.
Proof.
  induction l1 as [| c l1 IH]; cbn [app painted]; [reflexivity |].
  now destruct (covers c p).
Qed.

Lemma painted_not_covered (l : list circle) (p : GPoint) :
  covered l p = false -> painted l p = None.
Proof.
  unfold covered. induction l as [| c l IH]; cbn [existsb painted];
    [reflexivity |].
  intros H. apply orb_false_iff in H. destruct H as [-> Hl]. now apply IH.
Qed.

Lemma painted_covered (l : list circle) (p : GPoint) :
  covered l p = true -> exists k, painted l p = Some k.
Proof.
  unfold covered. induction l as [| c l IH]; cbn [existsb painted];
    [discriminate |].
  destruct (covers c p); [now exists (color c) | exact IH].
Qed.

Lemma covers_geometry (c1 c2 : circle) (p : GPoint) :
  geometry c1 = geometry c2 -> covers c1 p = covers c2 p.
Proof.
  unfold geometry, covers. intros E. injection E as -> ->. reflexivity.
Qed.

Lemma covered_geometry (l1 l2 : list circle) (p : GPoint) :
  map geometry l1 = map geometry l2 -> covered l1 p = covered l2 p.
Proof.
  unfold covered. revert l2.
  induction l1 as [| c1 l1 IH]; intros [| c2 l2] E; try discriminate;
    [reflexivity |].
  cbn [map] in E.
  assert (Ec : geometry c1 = geometry c2) by congruence.
  assert (El : map geometry l1 = map geometry l2) by congruence.
  cbn [existsb].
  now rewrite (covers_geometry c1 c2 p Ec), (IH l2 El).
Qed.

(** A log is painted over entirely by a later log of the same circles,
    whatever the colours. *)
Lemma painted_over (l2 l1 rest : list circle) (p : GPoint) :
  map geometry l1 = map geometry l2 ->
  painted (l2 ++ l1 ++ rest) p = painted (l2 ++ rest) p.
Proof.
  intros E. rewrite !painted_app.
  destruct (painted l2 p) eqn:E2; [reflexivity |].
  destruct (covered l2 p) eqn:C2.
  - apply painted_covered in C2. destruct C2 as [k Hk]. congruence.
  - rewrite (painted_not_covered l1); [reflexivity |].
    now rewrite (covered_geometry l1 l2 p E).
Qed.

(** ** The circles of the time layer *)

Lemma drawn_time_update (t : tm) (is_24h_style : bool) (ctx : GContext) :
  drawn (time_update t is_24h_style ctx)
  = time_circles t is_24h_style ++ drawn ctx.
Proof. reflexivity. Qed.

Lemma time_circles_geometry (t : tm) (is_24h_style : bool) :
  map geometry (time_circles t is_24h_style) = map cell_geometry time_cells.
Proof. reflexivity. Qed.

Lemma time_cells_grid (col row : Z) :
  In (col, row) time_cells ->
  (0 <= col <= 4 /\ 0 <= row <= 5) /\ (col =? 0) && (row =? 4) = false.
Proof.
  intros H.
  assert (F : forallb (fun a => (0 <=? fst a) && (fst a <=? 4)
                                && (0 <=? snd a) && (snd a <=? 5)
                                && negb ((fst a =? 0) && (snd a =? 4)))
                      time_cells = true) by reflexivity.
  rewrite forallb_forall in F. specialize (F _ H). cbn [fst snd] in F.
  rewrite !andb_true_iff, !Z.leb_le, negb_true_iff in F. tauto.
Qed.

(** The grid is the 29 addresses of the time layer and the address (0, 4). *)
Lemma grid_time_cells (col row : Z) :
  0 <= col <= 4 -> 0 <= row <= 5 -> (col, row) <> (0, 4) ->
  In (col, row) time_cells.
Proof.
  intros Hc Hr Hne.
  assert (C : col = 0 \/ col = 1 \/ col = 2 \/ col = 3 \/ col = 4) by lia.
  assert (R : row = 0 \/ row = 1 \/ row = 2 \/ row = 3 \/ row = 4 \/ row = 5)
    by lia.
  destruct C as [-> | [-> | [-> | [-> | ->]]]];
    destruct R as [-> | [-> | [-> | [-> | [-> | ->]]]]];
    try (now contradiction Hne);
    unfold time_cells, kMonthColumn, kDayOfMonthColumn, kHourColumn,
      kMinuteColumn, kSecondColumn, kWeekDayLine; cbn [In]; tauto.
Qed.

(** A pixel that the time layer paints is in the circle of one of its
    addresses. *)
Lemma covered_time_circles (t : tm) (is_24h_style : bool) (p : GPoint) :
  covered (time_circles t is_24h_style) p = true ->
  exists col row,
    In (col, row) time_cells
    /\ covers (mkCircle (getCenter col row) kDotRadius GColorBlack) p = true.
Proof.
  unfold covered. intros H. apply existsb_exists in H.
  destruct H as (c & Hin & Hc).
  apply (in_map geometry) in Hin. rewrite time_circles_geometry in Hin.
  apply in_map_iff in Hin. destruct Hin as ([col row] & Eg & Hcell).
  exists col, row. split; [assumption |].
  rewrite <- Hc. apply covers_geometry. exact Eg.
Qed.

Lemma time_circles_miss_connection (t : tm) (is_24h_style : bool)
      (k : GColor) (p : GPoint) :
  covers (mkCircle (getCenter 0 4) kDotRadius k) p = true ->
  covered (time_circles t is_24h_style) p = false.
Proof.
  intros H04. destruct (covered _ p) eqn:C; [| reflexivity].
  apply covered_time_circles in C. destruct C as (col & row & Hin & Hc).
  apply time_cells_grid in Hin. destruct Hin as [[Hcol Hrow] Hne].
  assert (R : in_range col row = true)
    by (apply in_range_spec; unfold max_address; lia).
  pose proof (covers_disjoint col row 0 4 GColorBlack k p R eq_refl Hne Hc).
  congruence.
Qed.

(** ** The indicator renderer, pixel by pixel *)

(** X1.  Drawing an indicator again replaces what was drawn: after two
    [toggle_led] calls on one address every pixel is as after the second
    call alone. *)
Theorem toggle_led_overwrites (ctx : GContext) (col row : Z) (a b : bool)
        (p : GPoint) :
  pixel (toggle_led (toggle_led ctx col row a) col row b) p
  = pixel (toggle_led ctx col row b) p.
Proof.
  unfold pixel. rewrite !drawn_toggle_led. cbn [painted].
  rewrite (covers_geometry
             (mkCircle (getCenter col row) kDotRadius
                       (if a then GColorWhite else GColorBlack))
             (mkCircle (getCenter col row) kDotRadius
                       (if b then GColorWhite else GColorBlack)) p eq_refl).
  now destruct (covers _ p).
Qed.

(** X2.  Indicators at two different addresses in 0..1169 can be drawn in
    either order: every pixel ends up the same. *)
Theorem toggle_led_commutes (ctx : GContext) (c1 r1 c2 r2 : Z) (a b : bool)
        (p : GPoint) :
  0 <= c1 <= max_address -> 0 <= r1 <= max_address ->
  0 <= c2 <= max_address -> 0 <= r2 <= max_address ->
  (c1, r1) <> (c2, r2) ->
  pixel (toggle_led (toggle_led ctx c1 r1 a) c2 r2 b) p
  = pixel (toggle_led (toggle_led ctx c2 r2 b) c1 r1 a) p.
Proof.
  intros Hc1 Hr1 Hc2 Hr2 Hne.
  assert (R1 : in_range c1 r1 = true) by now apply in_range_spec.
  assert (R2 : in_range c2 r2 = true) by now apply in_range_spec.
  assert (D : (c1 =? c2) && (r1 =? r2) = false).
  { destruct (Z.eqb_spec c1 c2) as [-> | ?]; [| reflexivity].
    destruct (Z.eqb_spec r1 r2) as [-> | ?]; [| reflexivity].
    now contradiction Hne. }
  unfold pixel. rewrite !drawn_toggle_led. cbn [painted color].
  set (k1 := if a then GColorWhite else GColorBlack).
  set (k2 := if b then GColorWhite else GColorBlack).
  destruct (covers (mkCircle (getCenter c1 r1) kDotRadius k1) p) eqn:E1.
  - now rewrite (covers_disjoint c1 r1 c2 r2 k1 k2 p R1 R2 D E1).
  - reflexivity.
Qed.

Lemma toggle_led_commutes_witness :
  pixel (toggle_led (toggle_led blank 0 4 true) 0 5 false) (getCenter 0 4)
  = pixel (toggle_led (toggle_led blank 0 5 false) 0 4 true) (getCenter 0 4).
Proof.
  apply (toggle_led_commutes blank 0 4 0 5 true false (getCenter 0 4));
    unfold max_address; try lia.
  intros E. injection E as E. lia.
Defined.

(** ** Whole redraws *)

(** X3.  A redraw of the time layer leaves no trace of the redraw before
    it: whatever time and mode were drawn first, every pixel is as if only
    the second redraw had happened. *)
Theorem time_update_repaints (t1 t2 : tm) (m1 m2 : bool) (ctx : GContext)
        (p : GPoint) :
  pixel (time_update t2 m2 (time_update t1 m1 ctx)) p
  = pixel (time_update t2 m2 ctx) p.
Proof.
  unfold pixel. rewrite !drawn_time_update.
  apply painted_over. now rewrite !time_circles_geometry.
Qed.

(** X4.  The time layer never paints a pixel of the indicator at column 0,
    row 4, the one that the connection layer draws. *)
Theorem time_update_spares_connection_led (t : tm) (is_24h_style : bool)
        (ctx : GContext) (k : GColor) (p : GPoint) :
  covers (mkCircle (getCenter 0 4) kDotRadius k) p = true ->
  pixel (time_update t is_24h_style ctx) p = pixel ctx p.
Proof.
  intros H. unfold pixel. rewrite drawn_time_update, painted_app.
  rewrite painted_not_covered; [reflexivity |].
  now apply (time_circles_miss_connection t is_24h_style k).
Qed.

Lemma time_update_spares_connection_led_witness :
  pixel (time_update new_years_eve true blank) (getCenter 0 4)
  = pixel blank (getCenter 0 4).
Proof.
  apply (time_update_spares_connection_led new_years_eve true blank
           GColorWhite (getCenter 0 4)).
  reflexivity.
Defined.

(** X5.  The time layer and the connection layer can be drawn in either
    order: every pixel ends up the same. *)
Theorem time_connected_commute (t : tm) (is_24h_style : bool) (g : globals)
        (ctx : GContext) (p : GPoint) :
  pixel (connected_update g (time_update t is_24h_style ctx)) p
  = pixel (time_update t is_24h_style (connected_update g ctx)) p.
Proof.
  unfold connected_update, pixel.
  rewrite drawn_toggle_led, !drawn_time_update, drawn_toggle_led.
  rewrite painted_app. cbn [painted color].
  destruct (covers _ p) eqn:E.
  - rewrite painted_not_covered; [reflexivity |].
    now apply (time_circles_miss_connection t is_24h_style _ p E).
  - now rewrite painted_app.
Qed.

(** X6.  Every pixel that a redraw of the time layer changes has x in
    4..140 and y in 2..166. *)
Theorem time_update_bounding_box (t : tm) (is_24h_style : bool)
        (ctx : GContext) (p : GPoint) :
  pixel (time_update t is_24h_style ctx) p <> pixel ctx p ->
  4 <= x p <= 140 /\ 2 <= y p <= 166.
Proof.
  unfold pixel. rewrite drawn_time_update, painted_app. intros Hdiff.
  destruct (covered (time_circles t is_24h_style) p) eqn:C.
  - apply covered_time_circles in C. destruct C as (col & row & Hin & Hc).
    apply time_cells_grid in Hin. destruct Hin as [[Hcol Hrow] _].
    rewrite getCenter_in_range in Hc
      by (apply in_range_spec; unfold max_address; lia).
    unfold covers, kDotRadius in Hc; cbn [center radius x y] in Hc.
    apply Z.leb_le in Hc.
    pose proof (Z.square_nonneg (x p - (28 * col + 16))).
    pose proof (Z.square_nonneg (y p - (28 * row + 14))).
    assert (-12 <= x p - (28 * col + 16) <= 12)
      by (apply square_le_144; lia).
    assert (-12 <= y p - (28 * row + 14) <= 12)
      by (apply square_le_144; lia).
    lia.
  - rewrite painted_not_covered in Hdiff by assumption. now contradiction Hdiff.
Qed.

Lemma time_update_bounding_box_witness :
  4 <= x (getCenter kSecondColumn 5) <= 140
  /\ 2 <= y (getCenter kSecondColumn 5) <= 166.
Proof.
  apply (time_update_bounding_box new_years_eve true blank
           (getCenter kSecondColumn 5)).
  vm_compute. discriminate.
Defined.

(** ** Fields out of their usual range *)

Lemma bits_value_ext (n n' : Z) (rows : list Z) :
  (forall r, In r rows -> Z.testbit n r = Z.testbit n' r) ->
  bits_value n rows = bits_value n' rows.
Proof.
  unfold bits_value. induction rows as [| r rows IH]; intros H;
    cbn [fold_right]; [reflexivity |].
  rewrite (H r) by (left; reflexivity).
  rewrite IH; [reflexivity |]. intros r' Hr'. apply H. now right.
Qed.

Lemma bits_value_mod (n k : Z) (rows : list Z) :
  (forall r, In r rows -> r < k) ->
  bits_value n rows = bits_value (n mod 2 ^ k) rows.
Proof.
  intros H. apply bits_value_ext. intros r Hr.
  symmetry. apply Z.mod_pow2_bits_low. now apply H.
Qed.

Lemma bits_value_6_mod (n : Z) :
  bits_value n [0; 1; 2; 3; 4; 5] = n mod 64.
Proof.
  rewrite (bits_value_mod n 6) by (intros r Hr; cbn [In] in Hr; lia).
  apply bits_value_6. change (2 ^ 6) with 64. apply Z.mod_pos_bound. lia.
Qed.

Lemma bits_value_5_mod (n : Z) : bits_value n [0; 1; 2; 3; 4] = n mod 32.
Proof.
  rewrite (bits_value_mod n 5) by (intros r Hr; cbn [In] in Hr; lia).
  apply bits_value_5. change (2 ^ 5) with 32. apply Z.mod_pos_bound. lia.
Qed.

Lemma bits_value_4_mod (n : Z) : bits_value n [0; 1; 2; 3] = n mod 16.
Proof.
  rewrite (bits_value_mod n 4) by (intros r Hr; cbn [In] in Hr; lia).
  apply bits_value_4. change (2 ^ 4) with 16. apply Z.mod_pos_bound. lia.
Qed.

Lemma bits_value_3_mod (n : Z) :
  CInt.of_bool (Z.testbit n 0) + 2 * CInt.of_bool (Z.testbit n 1)
  + 4 * CInt.of_bool (Z.testbit n 2) = n mod 8.
Proof.
  rewrite <- (Z.mod_pow2_bits_low n 3 0), <- (Z.mod_pow2_bits_low n 3 1),
    <- (Z.mod_pow2_bits_low n 3 2) by lia.
  apply bits_value_3. change (2 ^ 3) with 8. apply Z.mod_pos_bound. lia.
Qed.

(** X7.  Whatever the clock holds, each column shows its field modulo the
    size of the column: seconds and minutes modulo 64 on rows 0..5, the
    displayed hour modulo 16 on rows 0..3, the day modulo 32 on rows 0..4,
    the month modulo 16 on rows 0..3, and [week_day] modulo 8 on the sixth
    line. *)
Theorem columns_modulo (t : tm) (is_24h_style : bool) (ctx : GContext) :
  let g := time_update t is_24h_style ctx in
  read_rows g kSecondColumn [0; 1; 2; 3; 4; 5] = tm_sec t mod 64
  /\ read_rows g kMinuteColumn [0; 1; 2; 3; 4; 5] = tm_min t mod 64
  /\ read_rows g kHourColumn [0; 1; 2; 3] = hour t is_24h_style mod 16
  /\ read_rows g kDayOfMonthColumn [0; 1; 2; 3; 4] = tm_mday t mod 32
  /\ read_rows g kMonthColumn [0; 1; 2; 3] = month t mod 16
  /\ read_week_day g = week_day t mod 8.
Proof.
  intros g. subst g. repeat split.
  - rewrite (read_rows_bits _ _ (tm_sec t)); [apply bits_value_6_mod |].
    intros r Hr. apply second_column. cbn [In] in Hr. lia.
  - rewrite (read_rows_bits _ _ (tm_min t)); [apply bits_value_6_mod |].
    intros r Hr. apply minute_column. cbn [In] in Hr. lia.
  - rewrite (read_rows_bits _ _ (hour t is_24h_style));
      [apply bits_value_4_mod |].
    intros r Hr. apply hour_column_low. cbn [In] in Hr. lia.
  - rewrite (read_rows_bits _ _ (tm_mday t)); [apply bits_value_5_mod |].
    intros r Hr. apply day_of_month_column. cbn [In] in Hr. lia.
  - rewrite (read_rows_bits _ _ (month t)); [apply bits_value_4_mod |].
    intros r Hr. apply month_column. cbn [In] in Hr. lia.
  - unfold read_week_day.
    destruct (week_day_line t is_24h_style ctx) as (-> & -> & ->).
    apply bits_value_3_mod.
Qed.

(** ** Reading the clock back *)

Lemma hour_rows_24h (t : tm) (ctx : GContext) :
  read_rows (time_update t true ctx) kHourColumn [0; 1; 2; 3; 4]
  = hour t true mod 32.
Proof.
  rewrite (read_rows_bits _ _ (hour t true)); [apply bits_value_5_mod |].
  intros r Hr. cbn [In] in Hr.
  destruct (Z.eq_dec r 4) as [-> | Hne].
  - now rewrite hour_column_4.
  - apply hour_column_low. lia.
Qed.

Lemma hour_12h_and_pm (h : Z) :
  0 <= h <= 23 ->
  (if h mod 12 =? 0 then 12 else h mod 12) mod 16 mod 12
  + 12 * CInt.of_bool (12 <=? h) = h.
Proof.
  intros Hh. apply Z.eqb_eq.
  apply (all_below_spec 24
           (fun h => (if h mod 12 =? 0 then 12 else h mod 12) mod 16 mod 12
                     + 12 * CInt.of_bool (12 <=? h) =? h));
    [vm_compute; reflexivity | lia].
Qed.

(** X8.  For every valid clock value, in either mode, reading the grid
    after [time_update] gives the clock value back: seconds, minutes, hour
    (in 12-hour mode from the four hour bits and the PM flag), day, month
    (0..11) and weekday (0..6). *)
Theorem read_tm_time_update (t : tm) (is_24h_style : bool) (ctx : GContext) :
  valid_tm t -> read_tm is_24h_style (time_update t is_24h_style ctx) = t.
Proof.
  intros (Hs & Hm & Hh & Hd & Hmo & Hw).
  destruct (columns_modulo t is_24h_style ctx) as (Es & Em & Eh & Ed & Emo & Ew).
  cbv zeta in Es, Em, Eh, Ed, Emo, Ew.
  unfold read_tm, read_hour. rewrite Es, Em, Ed, Emo, Ew.
  destruct t as [s m h d mo w]; cbn [tm_sec tm_min tm_hour tm_mday tm_mon tm_wday] in *.
  f_equal.
  - apply Z.mod_small; lia.
  - apply Z.mod_small; lia.
  - destruct is_24h_style.
    + rewrite hour_rows_24h, hour_24h by (cbn [tm_hour]; lia).
      cbn [tm_hour]. apply Z.mod_small; lia.
    + rewrite Eh, hour_column_4, hour_12h, pm_spec by (cbn [tm_hour]; lia).
      cbn [tm_hour]. now apply hour_12h_and_pm.
  - apply Z.mod_small; lia.
  - rewrite month_spec by (cbn [tm_mon]; lia). cbn [tm_mon].
    rewrite Z.mod_small; lia.
  - rewrite week_day_spec by (cbn [tm_wday]; lia). cbn [tm_wday].
    destruct (Z.eqb_spec w 0) as [-> | Hne]; [reflexivity |].
    rewrite (Z.mod_small w 8) by lia. apply Z.mod_small; lia.
Qed.

Lemma read_tm_time_update_witness :
  read_tm false (time_update new_years_eve false blank) = new_years_eve.
Proof.
  apply (read_tm_time_update new_years_eve false blank).
  unfold valid_tm, new_years_eve;
    cbn [tm_sec tm_min tm_hour tm_mday tm_mon tm_wday]. lia.
Defined.

Lemma read_rows_ext (g1 g2 : GContext) (col : Z) (rows : list Z) :
  (forall r, In r rows -> led_on g1 col r = led_on g2 col r) ->
  read_rows g1 col rows = read_rows g2 col rows.
Proof.
  unfold read_rows, bit_value. induction rows as [| r rows IH]; intros H;
    cbn [fold_right]; [reflexivity |].
  rewrite (H r) by (left; reflexivity).
  rewrite IH; [reflexivity |]. intros r' Hr'. apply H. now right.
Qed.

(** What is read depends on the 29 indicators of the time layer only. *)
Lemma read_tm_ext (is_24h_style : bool) (g1 g2 : GContext) :
  (forall col row, In (col, row) time_cells ->
                   led_on g1 col row = led_on g2 col row) ->
  read_tm is_24h_style g1 = read_tm is_24h_style g2.
Proof.
  intros H.
  assert (R : forall col rows,
             (forall r, In r rows -> In (col, r) time_cells) ->
             read_rows g1 col rows = read_rows g2 col rows).
  { intros col rows Hin. apply read_rows_ext. intros r Hr.
    apply H. now apply Hin. }
  assert (G : forall col row, 0 <= col <= 4 -> 0 <= row <= 5 ->
                              (col, row) <> (0, 4) ->
                              In (col, row) time_cells)
    by exact grid_time_cells.
  assert (N : forall a b : Z, a <> 0 -> (a, b) <> (0, 4))
    by (intros a b Ha E; injection E as E1 E2; contradiction).
  assert (N' : forall a b : Z, b <> 4 -> (a, b) <> (0, 4))
    by (intros a b Hb E; injection E as E1 E2; contradiction).
  unfold read_tm, read_hour, read_week_day.
  rewrite (R kSecondColumn [0; 1; 2; 3; 4; 5]),
    (R kMinuteColumn [0; 1; 2; 3; 4; 5]),
    (R kHourColumn [0; 1; 2; 3; 4]), (R kHourColumn [0; 1; 2; 3]),
    (R kDayOfMonthColumn [0; 1; 2; 3; 4]), (R kMonthColumn [0; 1; 2; 3]),
    (H kHourColumn 4), (H kHourColumn kWeekDayLine),
    (H kDayOfMonthColumn kWeekDayLine), (H kMonthColumn kWeekDayLine);
    try reflexivity;
    try (intros r Hr; cbn [In] in Hr);
    apply G;
    unfold kMonthColumn, kDayOfMonthColumn, kHourColumn, kMinuteColumn,
      kSecondColumn, kWeekDayLine;
    try lia;
    first [apply N; lia | apply N'; lia].
Qed.

(** X9.  The display tells valid clock values apart: if two valid clock
    values drawn in the same mode light the same indicators among the 29 of
    the time layer, they are the same clock value. *)
Theorem time_update_injective (t1 t2 : tm) (is_24h_style : bool)
        (ctx1 ctx2 : GContext) :
  valid_tm t1 -> valid_tm t2 ->
  (forall col row,
      In (col, row) time_cells ->
      led_on (time_update t1 is_24h_style ctx1) col row
      = led_on (time_update t2 is_24h_style ctx2) col row) ->
  t1 = t2.
Proof.
  intros V1 V2 H.
  rewrite <- (read_tm_time_update t1 is_24h_style ctx1 V1).
  rewrite <- (read_tm_time_update t2 is_24h_style ctx2 V2).
  now apply read_tm_ext.
Qed.

Lemma time_update_injective_witness : new_years_eve = new_years_eve.
Proof.
  apply (time_update_injective new_years_eve new_years_eve true
           blank (toggle_led blank 0 4 true)).
  - unfold valid_tm, new_years_eve;
      cbn [tm_sec tm_min tm_hour tm_mday tm_mon tm_wday]. lia.
  - unfold valid_tm, new_years_eve;
      cbn [tm_sec tm_min tm_hour tm_mday tm_mon tm_wday]. lia.
  - intros col row Hin. unfold time_cells in Hin. cbn [In] in Hin.
    repeat (destruct Hin as [E | Hin];
            [injection E as <- <-; vm_compute; reflexivity |]).
    contradiction.
Defined.

(** ** A whole frame *)

Lemma drawn_draw_frame (t : tm) (is_24h_style : bool) (g : globals)
      (ctx : GContext) :
  drawn (draw_frame t is_24h_style g ctx)
  = (mkCircle (getCenter 0 4) kDotRadius
              (if s_connected_current g then GColorWhite else GColorBlack)
     :: time_circles t is_24h_style) ++ drawn ctx.
Proof.
  unfold draw_frame, battery_update, connected_update.
  now rewrite drawn_toggle_led, drawn_time_update.
Qed.

(** X10.  A frame, the three layers drawn in the order in which [init]
    registers them, shows both the time and the connection: for a valid
    clock value the grid reads back as that value, and the indicator at
    column 0, row 4 shows the connection flag. *)
Theorem draw_frame_shows (t : tm) (is_24h_style : bool) (g : globals)
        (ctx : GContext) :
  valid_tm t ->
  read_tm is_24h_style (draw_frame t is_24h_style g ctx) = t
  /\ led_on (draw_frame t is_24h_style g ctx) 0 4 = s_connected_current g.
Proof.
  intros V. unfold draw_frame, battery_update, connected_update. split.
  - rewrite <- (read_tm_time_update t is_24h_style ctx V) at 2.
    apply read_tm_ext. intros col row Hin.
    apply time_cells_grid in Hin. destruct Hin as [[Hc Hr] Hne].
    apply led_on_toggle_led_other.
    + reflexivity.
    + apply in_range_spec. unfold max_address. lia.
    + now rewrite (Z.eqb_sym 0), (Z.eqb_sym 4).
  - apply led_on_toggle_led_same.
Qed.

Lemma draw_frame_shows_witness :
  read_tm true (draw_frame new_years_eve true (init
    (mkBatteryChargeState 80 false false) true) blank) = new_years_eve
  /\ led_on (draw_frame new_years_eve true (init
       (mkBatteryChargeState 80 false false) true) blank) 0 4 = true.
Proof.
  apply (draw_frame_shows new_years_eve true
           (init (mkBatteryChargeState 80 false false) true) blank).
  unfold valid_tm, new_years_eve;
    cbn [tm_sec tm_min tm_hour tm_mday tm_mon tm_wday]. lia.
Defined.

(** X11.  A frame leaves no trace of the frame before it: whatever clock
    value, mode and connection flag were drawn first, every pixel is as if
    only the second frame had been drawn. *)
Theorem draw_frame_repaints (t1 t2 : tm) (m1 m2 : bool) (g1 g2 : globals)
        (ctx : GContext) (p : GPoint) :
  pixel (draw_frame t2 m2 g2 (draw_frame t1 m1 g1 ctx)) p
  = pixel (draw_frame t2 m2 g2 ctx) p.
Proof.
  unfold pixel. rewrite !drawn_draw_frame.
  apply painted_over. cbn [map]. now rewrite !time_circles_geometry.
Qed.

(** ** Notifications *)

Lemma app_event_loop_app (events1 events2 : list event) (g : globals) :
  app_event_loop (events1 ++ events2) g
  = app_event_loop events2 (app_event_loop events1 g).
Proof. apply fold_left_app. Qed.

Lemma connection_kept (events : list event) (g : globals) :
  forallb (fun e => negb (is_connection_event e)) events = true ->
  s_connected_current (app_event_loop events g) = s_connected_current g.
Proof.
  revert g. induction events as [| e events IH]; intros g H;
    [reflexivity |].
  cbn [forallb] in H. apply andb_true_iff in H. destruct H as [He Hrest].
  unfold app_event_loop in *. cbn [fold_left]. rewrite IH by assumption.
  destruct e; [reflexivity | reflexivity | discriminate].
Qed.

Lemma battery_kept (events : list event) (g : globals) :
  forallb (fun e => negb (is_battery_event e)) events = true ->
  s_battery_current (app_event_loop events g) = s_battery_current g.
Proof.
  revert g. induction events as [| e events IH]; intros g H;
    [reflexivity |].
  cbn [forallb] in H. apply andb_true_iff in H. destruct H as [He Hrest].
  unfold app_event_loop in *. cbn [fold_left]. rewrite IH by assumption.
  destruct e; [reflexivity | discriminate | reflexivity].
Qed.

(** X12.  After any run of notifications, the connection flag is the one
    of the last connection notification, however many ticks and battery
    notifications came after it, and a redraw of the connection layer shows
    it; without any connection notification the flag is unchanged. *)
Theorem last_connection_wins (before after : list event) (c : bool)
        (g : globals) (ctx : GContext) :
  forallb (fun e => negb (is_connection_event e)) after = true ->
  s_connected_current
    (app_event_loop (before ++ ConnectionChanged c :: after) g) = c
  /\ led_on (connected_update
               (app_event_loop (before ++ ConnectionChanged c :: after) g)
               ctx) 0 4 = c
  /\ s_connected_current (app_event_loop after g) = s_connected_current g.
Proof.
  intros H.
  assert (E : s_connected_current
                (app_event_loop (before ++ ConnectionChanged c :: after) g)
              = c).
  { rewrite app_event_loop_app.
    change (app_event_loop (ConnectionChanged c :: after) ?g0)
      with (app_event_loop after (handle_connected c g0)).
    now rewrite connection_kept. }
  split; [exact E | split].
  - unfold connected_update. rewrite led_on_toggle_led_same. exact E.
  - now apply connection_kept.
Qed.

Lemma last_connection_wins_witness :
  s_connected_current
    (app_event_loop
       ([ConnectionChanged false] ++ ConnectionChanged true
        :: [Tick None SECOND_UNIT;
            BatteryChanged (mkBatteryChargeState 50 true true)])
       globals_init) = true
  /\ led_on (connected_update
               (app_event_loop
                  ([ConnectionChanged false] ++ ConnectionChanged true
                   :: [Tick None SECOND_UNIT;
                       BatteryChanged (mkBatteryChargeState 50 true true)])
                  globals_init) blank) 0 4 = true
  /\ s_connected_current
       (app_event_loop
          [Tick None SECOND_UNIT;
           BatteryChanged (mkBatteryChargeState 50 true true)]
          globals_init) = s_connected_current globals_init.
Proof.
  apply (last_connection_wins [ConnectionChanged false]
           [Tick None SECOND_UNIT;
            BatteryChanged (mkBatteryChargeState 50 true true)]
           true globals_init blank).
  reflexivity.
Defined.

(** X13.  After any run of notifications, the cached battery state is the
    one of the last battery notification, however many ticks and connection
    notifications came after it; without any battery notification it is
    unchanged. *)
Theorem last_battery_wins (before after : list event)
        (b : BatteryChargeState) (g : globals) :
  forallb (fun e => negb (is_battery_event e)) after = true ->
  s_battery_current
    (app_event_loop (before ++ BatteryChanged b :: after) g) = b
  /\ s_battery_current (app_event_loop after g) = s_battery_current g.
Proof.
  intros H. split.
  - rewrite app_event_loop_app.
    change (app_event_loop (BatteryChanged b :: after) ?g0)
      with (app_event_loop after (handle_battery b g0)).
    now rewrite battery_kept.
  - now apply battery_kept.
Qed.

Lemma last_battery_wins_witness :
  s_battery_current
    (app_event_loop
       ([] ++ BatteryChanged (mkBatteryChargeState 50 true true)
        :: [ConnectionChanged true; Tick None SECOND_UNIT])
       globals_init) = mkBatteryChargeState 50 true true
  /\ s_battery_current
       (app_event_loop [ConnectionChanged true; Tick None SECOND_UNIT]
                       globals_init)
     = s_battery_current globals_init.
Proof.
  apply (last_battery_wins [] [ConnectionChanged true; Tick None SECOND_UNIT]
           (mkBatteryChargeState 50 true true) globals_init).
  reflexivity.
Defined.



(** X15.  For every hour in 0..23, row 4 of the hour column is lit from
    16:00 on in 24-hour mode and from 12:00 on in 12-hour mode. *)
Theorem hour_row_4_threshold (t : tm) (is_24h_style : bool) (ctx : GContext) :
  0 <= tm_hour t <= 23 ->
  led_on (time_update t is_24h_style ctx) kHourColumn 4
  = if is_24h_style then 16 <=? tm_hour t else 12 <=? tm_hour t.
Proof.
  intros H. rewrite hour_column_4. destruct is_24h_style.
  - rewrite hour_24h by assumption.
    apply Bool.eqb_prop.
    apply (all_below_spec 24
             (fun h => Bool.eqb (Z.testbit h 4) (16 <=? h)));
      [vm_compute; reflexivity | lia].
  - now apply pm_spec.
Qed.

Lemma hour_row_4_threshold_witness :
  led_on (time_update (mk_tm 0 0 15 1 0 1) true blank) kHourColumn 4 = false
  /\ led_on (time_update (mk_tm 0 0 15 1 0 1) false blank) kHourColumn 4
     = true.
Proof.
  split.
  - apply (hour_row_4_threshold (mk_tm 0 0 15 1 0 1) true blank).
    cbn [tm_hour]. lia.
  - apply (hour_row_4_threshold (mk_tm 0 0 15 1 0 1) false blank).
    cbn [tm_hour]. lia.
Defined.
